(** * OffersScreen: the order-placement workflow of [src/Screens/OffersScreen.tsx]

    The screen is a React function component.  Its behaviour is embedded as an
    event-driven state machine:

    - the three [useState] cells ([products], [loading], [refreshing]) form
      the [ViewState];
    - every [async] function is cut at its [await]: the part that runs when
      the function is called, and the part that runs when the awaited service
      call settles (resolves or rejects);
    - calls that leave the component ([getInventory], [createOrder],
      [Alert.alert]) are appended to a chronological [trace];
    - open alert dialogs keep the handlers of their buttons, so that a later
      press runs the closure the source attached, with the product it
      captured.

    JavaScript runs the handlers one at a time, so an [Event] is handled
    atomically by [step]. *)

From Stdlib Require Import ZArith.
From stdpp Require Import base option list strings pretty.

(** ** Values of [../api/client] *)

(** Modelled from the spec: the [Product] type is imported from
    [../api/client], which declares it; the fields are the ones the spec's
    data model lists and the screen reads.  Numbers are only copied or
    printed by the screen, never computed with; they are integers here. *)
Module Product.
Record t : Type := mk {
    id : string;
    distributor_id : string;
    product_name : string;
    category : option string;
    price : Z;
    moq : Z;
    payment_modes : list string;
    lead_time : option string;
    stock_quantity : Z;
    service_areas : list string;
}.
End Product.

(** Modelled from the spec: the argument of [createOrder], an object with
    exactly the eight fields the screen fills in. *)
Module OrderRequest.
Record t : Type := mk {
    user_id : string;
    distributor_id : string;
    product_id : string;
    product_name : string;
    quantity : Z;
    price : Z;
    payment_mode : string;
    delivery_address : string;
}.
End OrderRequest.

(** Modelled from the spec: what [createOrder] resolves to. *)
Record Order : Type := { order_id : string }.

(** Modelled from the spec: what a rejected service call throws.  The
    [catch] clauses only read [error.message], which may be missing. *)
Record ServiceError : Type := { message : option string }.

(** A settled promise: rejected with an error, or resolved with a value. *)
Definition Settled (A : Type) : Type := (ServiceError + A)%type.

(** ** JavaScript expressions used by the screen *)

(** [x || d] on a value that is a string or [undefined]: [undefined] and the
    empty string are falsy. *)
Definition js_or (x : option string) (d : string) : string :=
  match x with
  | Some EmptyString => d
  | Some s => s
  | None => d
  end.

(** The line break written [\n] in the template literals. *)
Definition nl : string := String (Ascii.ascii_of_nat 10) EmptyString.

(** [₹] (U+20B9) in UTF-8. *)
Definition rupee : string :=
  String (Ascii.ascii_of_nat 226)
    (String (Ascii.ascii_of_nat 130)
       (String (Ascii.ascii_of_nat 185) EmptyString)).

(** ** Alert dialogs *)

(** The closures the source attaches to alert buttons. *)
Inductive Handler : Type :=
  | NoHandler                            (* a button without [onPress] *)
  | PlaceOrderPressed (product : Product.t) (* the [async] closure of 'Place Order' *)
  | ReloadPressed.                       (* [() => loadProducts()] *)

Record AlertButton : Type := {
  text : string;
  style : option string;
  onPress : Handler;
}.

(** [Alert.alert(title, message, buttons?)]. *)
Record AlertDialog : Type := {
  title : string;
  body : string;
  buttons : option (list AlertButton);
}.

(** Without a button list React Native shows a single 'OK' button that only
    dismisses the dialog. *)
Definition alertButtons (d : AlertDialog) : list AlertButton :=
  default [ {| text := "OK"; style := None; onPress := NoHandler |} ] (buttons d).

(** ** State *)

Record ViewState : Type := {
  products : list Product.t;
  loading : bool;
  refreshing : bool;
}.

(** Calls that leave the component, in the order they are made. *)
Inductive Effect : Type :=
  | GetInventory (distributorId : option string) (onlyAvailable : option bool)
  | CreateOrder (request : OrderRequest.t)
  | AlertShown (dialog : AlertDialog).

(** Who awaits an in-flight [getInventory]: [loadProducts] called on its own
    (on mount, or from the success dialog), or [loadProducts] awaited by
    [onRefresh]. *)
Inductive Caller : Type := Direct | FromOnRefresh.

Record Screen : Type := {
  view : ViewState;
  alerts : list AlertDialog;            (* open dialogs *)
  fetching : list Caller;               (* in-flight [getInventory] calls *)
  submitting : list OrderRequest.t;     (* in-flight [createOrder] calls *)
  trace : list Effect;
}.

(** [useState<Product[]>([])], [useState(true)], [useState(false)]. *)
Definition initialView : ViewState :=
  {| products := []; loading := true; refreshing := false |}.

Definition initialScreen : Screen :=
  {| view := initialView; alerts := []; fetching := []; submitting := [];
     trace := [] |}.

Definition setView (f : ViewState → ViewState) (s : Screen) : Screen :=
  {| view := f (view s); alerts := alerts s; fetching := fetching s;
     submitting := submitting s; trace := trace s |}.

Definition setProducts (data : list Product.t) : Screen → Screen :=
  setView (λ v, {| products := data; loading := loading v;
                   refreshing := refreshing v |}).

Definition setLoading (b : bool) : Screen → Screen :=
  setView (λ v, {| products := products v; loading := b;
                   refreshing := refreshing v |}).

Definition setRefreshing (b : bool) : Screen → Screen :=
  setView (λ v, {| products := products v; loading := loading v;
                   refreshing := b |}).

Definition emit (e : Effect) (s : Screen) : Screen :=
  {| view := view s; alerts := alerts s; fetching := fetching s;
     submitting := submitting s; trace := trace s ++ [e] |}.

(** [Alert.alert]: the dialog opens and stays open until a button is
    pressed. *)
Definition Alert_alert (d : AlertDialog) (s : Screen) : Screen :=
  emit (AlertShown d)
    {| view := view s; alerts := alerts s ++ [d]; fetching := fetching s;
       submitting := submitting s; trace := trace s |}.

Definition closeAlert (i : nat) (s : Screen) : Screen :=
  {| view := view s; alerts := delete i (alerts s); fetching := fetching s;
     submitting := submitting s; trace := trace s |}.

(** [await getInventory(distributorId, onlyAvailable)], up to the [await]. *)
Definition getInventory (distributorId : option string)
    (onlyAvailable : option bool) (k : Caller) (s : Screen) : Screen :=
  emit (GetInventory distributorId onlyAvailable)
    {| view := view s; alerts := alerts s; fetching := fetching s ++ [k];
       submitting := submitting s; trace := trace s |}.

Definition fetchDone (i : nat) (s : Screen) : Screen :=
  {| view := view s; alerts := alerts s; fetching := delete i (fetching s);
     submitting := submitting s; trace := trace s |}.

(** [await createOrder(request)], up to the [await]. *)
Definition createOrder (request : OrderRequest.t) (s : Screen) : Screen :=
  emit (CreateOrder request)
    {| view := view s; alerts := alerts s; fetching := fetching s;
       submitting := submitting s ++ [request]; trace := trace s |}.

Definition submitDone (i : nat) (s : Screen) : Screen :=
  {| view := view s; alerts := alerts s; fetching := fetching s;
     submitting := delete i (submitting s); trace := trace s |}.

(** ** The component *)

(** [React.FC<{ userId?: string }>]. *)
Record Props : Type := { userId : option string }.

(** The destructuring default [{ userId = 'USER001' }]. *)
Definition userIdOf (props : Props) : string := default "USER001" (userId props).

Definition errorDialog (error : ServiceError) (fallback : string) : AlertDialog :=
  {| title := "Error"; body := js_or (message error) fallback; buttons := None |}.

(** [loadProducts], from the call to the [await]. *)
Definition loadProducts (k : Caller) (s : Screen) : Screen :=
  getInventory None (Some true) k (setLoading true s).

(** [loadProducts], from the settled [getInventory] to the end: the rest of
    the [try] block or the [catch] block, then [finally]. *)
Definition loadProducts_settled (r : Settled (list Product.t)) (s : Screen) : Screen :=
  setLoading false
    match r with
    | inr data => setProducts data s
    | inl error => Alert_alert (errorDialog error "Failed to load products") s
    end.

(** [onRefresh], from the call to the [await] inside [loadProducts]. *)
Definition onRefresh (s : Screen) : Screen :=
  loadProducts FromOnRefresh (setRefreshing true s).

(** [onRefresh], once the [loadProducts] it awaits has finished. *)
Definition onRefresh_settled (r : Settled (list Product.t)) (s : Screen) : Screen :=
  setRefreshing false (loadProducts_settled r s).

(** The object literal passed to [createOrder]. *)
Definition orderRequest (props : Props) (product : Product.t) : OrderRequest.t :=
  {| OrderRequest.user_id := userIdOf props;
     OrderRequest.distributor_id := Product.distributor_id product;
     OrderRequest.product_id := Product.id product;
     OrderRequest.product_name := Product.product_name product;
     OrderRequest.quantity := Product.moq product;
     OrderRequest.price := Product.price product;
     OrderRequest.payment_mode := js_or (Product.payment_modes product !! 0%nat) "COD";
     OrderRequest.delivery_address := "Default Address" |}.

Definition confirmDialog (product : Product.t) : AlertDialog :=
  {| title := "Place Order";
     body := "Order " +:+ Product.product_name product +:+ "?" +:+ nl +:+ nl
             +:+ "Price: " +:+ rupee +:+ pretty (Product.price product) +:+ nl
             +:+ "MOQ: " +:+ pretty (Product.moq product) +:+ " units";
     buttons := Some
       [ {| text := "Cancel"; style := Some "cancel"; onPress := NoHandler |};
         {| text := "Place Order"; style := None;
            onPress := PlaceOrderPressed product |} ] |}.

Definition successDialog (order : Order) : AlertDialog :=
  {| title := "Success";
     body := "Order placed successfully!" +:+ nl +:+ "Order ID: "
             +:+ order_id order +:+ nl +:+ nl
             +:+ "The distributor will see it in their Orders tab.";
     buttons := Some [ {| text := "OK"; style := None; onPress := ReloadPressed |} ] |}.

(** [handlePlaceOrder]: only opens the confirmation dialog. *)
Definition handlePlaceOrder (product : Product.t) (s : Screen) : Screen :=
  Alert_alert (confirmDialog product) s.

(** The 'Place Order' closure, from the press to the [await]. *)
Definition placeOrder (props : Props) (product : Product.t) (s : Screen) : Screen :=
  createOrder (orderRequest props product) s.

(** The 'Place Order' closure, from the settled [createOrder] to the end. *)
Definition placeOrder_settled (r : Settled Order) (s : Screen) : Screen :=
  match r with
  | inr order => Alert_alert (successDialog order) s
  | inl error => Alert_alert (errorDialog error "Failed to place order") s
  end.

Definition runHandler (props : Props) (h : Handler) (s : Screen) : Screen :=
  match h with
  | NoHandler => s
  | PlaceOrderPressed product => placeOrder props product s
  | ReloadPressed => loadProducts Direct s
  end.

(** What the component returns. *)
Inductive Rendered : Type :=
  | LoadingView
  | EmptyState
  | ProductCards (cards : list Product.t).

Definition render (v : ViewState) : Rendered :=
  if loading v && negb (refreshing v) then LoadingView
  else if bool_decide (length (products v) = 0%nat) then EmptyState
  else ProductCards (products v).

(** ** Events *)

Inductive Event : Type :=
  | PullToRefresh                       (* [RefreshControl]'s [onRefresh] *)
  | PressOrderButton (card : nat)       (* the order button of a card *)
  | PressAlertButton (dialog button : nat)
  | InventorySettled (call : nat) (r : Settled (list Product.t))
  | OrderSettled (call : nat) (r : Settled Order).

(** One event, handled to completion.  [None]: the event cannot happen in
    this state (the control is not on screen, or there is no such dialog or
    in-flight call).  Dialogs are not treated as modal: the machine allows
    every interleaving the device allows, and more. *)
Definition step (props : Props) (ev : Event) (s : Screen) : option Screen :=
  match ev with
  | PullToRefresh =>
      match render (view s) with
      | LoadingView => None
      | _ => Some (onRefresh s)
      end
  | PressOrderButton card =>
      match render (view s) with
      | ProductCards cards =>
          product ← cards !! card; Some (handlePlaceOrder product s)
      | _ => None
      end
  | PressAlertButton dialog button =>
      d ← alerts s !! dialog;
      b ← alertButtons d !! button;
      Some (runHandler props (onPress b) (closeAlert dialog s))
  | InventorySettled call r =>
      k ← fetching s !! call;
      Some match k with
           | Direct => loadProducts_settled r (fetchDone call s)
           | FromOnRefresh => onRefresh_settled r (fetchDone call s)
           end
  | OrderSettled call r =>
      _ ← submitting s !! call;
      Some (placeOrder_settled r (submitDone call s))
  end.

Fixpoint run (props : Props) (evs : list Event) (s : Screen) : option Screen :=
  match evs with
  | [] => Some s
  | ev :: evs => s' ← step props ev s; run props evs s'
  end.

(** The screen after its first render and the [useEffect] that calls
    [loadProducts()] once. *)
Definition mounted : Screen := loadProducts Direct initialScreen.

Definition reachable (props : Props) (s : Screen) : Prop :=
  ∃ evs, run props evs mounted = Some s.

(** Number of [getInventory] calls in a trace. *)
Definition isGetInventory (e : Effect) : bool :=
  match e with GetInventory _ _ => true | _ => false end.

Definition fetchCount (t : list Effect) : nat := length (filter isGetInventory t).

(** ** Invariant of the reachable screens *)

(** The buttons of the three dialogs the screen opens. *)
Inductive screenDialog : AlertDialog → Prop :=
  | sd_confirm product : screenDialog (confirmDialog product)
  | sd_success order : screenDialog (successDialog order)
  | sd_error error fallback : screenDialog (errorDialog error fallback).

(** Every open dialog is one of the screen's three and was shown; every
    order request was built by the 'Place Order' closure of a confirmation
    dialog shown before; every inventory call asked for the available
    products of all distributors. *)
Record traceInv (props : Props) (s : Screen) : Prop := {
  inv_alerts : ∀ d, d ∈ alerts s → screenDialog d ∧ AlertShown d ∈ trace s;
  inv_orders : ∀ req, CreateOrder req ∈ trace s →
    ∃ product, AlertShown (confirmDialog product) ∈ trace s
               ∧ req = orderRequest props product;
  inv_fetches : ∀ d o, GetInventory d o ∈ trace s → d = None ∧ o = Some true;
}.

(** A step adds one inventory call when it is a pull to refresh or a press
    on a button whose handler is [() => loadProducts()], and none
    otherwise. *)
Definition loadsOn (s : Screen) (ev : Event) : bool :=
  match ev with
  | PullToRefresh => true
  | PressAlertButton dialog button =>
      match d ← alerts s !! dialog; alertButtons d !! button with
      | Some {| onPress := ReloadPressed |} => true
      | _ => false
      end
  | _ => false
  end.

(** ** Sample data *)

Definition defaultProps : Props := {| userId := None |}.
Definition buyer7 : Props := {| userId := Some "USER007" |}.

Definition rice : Product.t :=
  Product.mk "P1" "D1" "Rice" (Some "Grain") 120 10 ["UPI"; "COD"] None 500 ["Pune"].

Definition salt : Product.t :=
  Product.mk "P2" "D1" "Salt" None 20 50 [""; "UPI"] None 5 [].

Definition sugar : Product.t :=
  Product.mk "P3" "D2" "Sugar" None 45 25 [] (Some "2 days") 40 ["Pune"; "Nashik"].

(** The catalog has loaded and nothing is in flight. *)
Definition idleScreen : Screen :=
  {| view := {| products := [rice; salt; sugar]; loading := false;
                refreshing := false |};
     alerts := []; fetching := []; submitting := [];
     trace := [GetInventory None (Some true)] |}.

Definition catalogLoaded : list Event :=
  [InventorySettled 0 (inr [rice; salt; sugar])].

(** The buyer selects a card and confirms. *)
Definition orderCard (card : nat) : list Event :=
  catalogLoaded ++ [PressOrderButton card; PressAlertButton 0 1].

Definition riceOrdered : Screen :=
  placeOrder defaultProps rice
    (closeAlert 0 (handlePlaceOrder rice
       (loadProducts_settled (inr [rice; salt; sugar]) (fetchDone 0 mounted)))).

Definition saltOrdered : Screen :=
  placeOrder defaultProps salt
    (closeAlert 0 (handlePlaceOrder salt
       (loadProducts_settled (inr [rice; salt; sugar]) (fetchDone 0 mounted)))).

(** The idle screen with the confirmation dialog for [rice] open. *)
Definition confirming : Screen := handlePlaceOrder rice idleScreen.

(** ** The returned view in full *)

(** The value of a JSX child written [x && <Text>...</Text>].  A guard that
    is [false] or [undefined] is itself the value and React renders
    nothing; a guard that is the empty string is itself the value, a bare
    string; otherwise the value is the element. *)
Inductive Conditional (A : Type) : Type :=
  | NotRendered
  | BareString (s : string)
  | Element (a : A).
Arguments NotRendered {A}.
Arguments BareString {A} s.
Arguments Element {A} a.

(** [x && e] for a guard that is a string or [undefined]. *)
Definition js_and_string {A : Type} (x : option string) (e : string → A)
    : Conditional A :=
  match x with
  | None => NotRendered
  | Some EmptyString => BareString EmptyString
  | Some s => Element (e s)
  end.

(** [b && e] for a boolean guard. *)
Definition js_and_bool {A : Type} (b : bool) (e : A) : Conditional A :=
  if b then Element e else NotRendered.

(** [Array.prototype.join] on strings. *)
Fixpoint join (sep : string) (l : list string) : string :=
  match l with
  | [] => ""
  | [x] => x
  | x :: rest => x +:+ sep +:+ join sep rest
  end.

(** One card of [products.map((product) => ...)]: the texts it shows and
    the closure of its order button. *)
Record Card : Type := {
  key : string;
  productName : string;
  productDescription : Conditional string;
  stockText : string;
  distributorName : string;
  priceText : string;
  moqText : string;
  leadText : Conditional string;
  areasText : Conditional string;
  paymentBadges : Conditional (list (nat * string));
  orderButton : Screen → Screen;
}.

Definition renderCard (product : Product.t) : Card :=
  {| key := Product.id product;
     productName := Product.product_name product;
     productDescription := js_and_string (Product.category product) (λ c, c);
     stockText := pretty (Product.stock_quantity product) +:+ " in stock";
     distributorName := "Distributor: " +:+ Product.distributor_id product;
     priceText := rupee +:+ pretty (Product.price product) +:+ "/unit";
     moqText := "MOQ: " +:+ pretty (Product.moq product) +:+ " units";
     leadText := js_and_string (Product.lead_time product) (λ l, "Lead: " +:+ l);
     areasText :=
       js_and_bool (bool_decide (0 < length (Product.service_areas product)))
         (join ", " (take 2 (Product.service_areas product)));
     paymentBadges :=
       js_and_bool (bool_decide (0 < length (Product.payment_modes product)))
         (imap (λ idx mode, (idx, mode)) (Product.payment_modes product));
     orderButton := handlePlaceOrder product |}.

Inductive Content : Type :=
  | EmptyMessage (emptyText emptySubtext : string)
  | Cards (cards : list Card).

Inductive ScreenView : Type :=
  | LoadingScreen (loadingText : string)
  | ListScreen (refreshControl : bool) (headerTitle headerSubtitle : string)
      (content : Content).

(** The two [return]s of the component. *)
Definition OffersScreen_view (v : ViewState) : ScreenView :=
  if loading v && negb (refreshing v) then LoadingScreen "Loading products..."
  else
    ListScreen (refreshing v) "Available Products"
      "Place orders directly. Track status in Orders tab."
      (if bool_decide (length (products v) = 0%nat)
       then EmptyMessage "No products available"
              "Products will appear here when distributors add them"
       else Cards (renderCard <$> products v)).

(** ** Counting in traces and dialog lists *)

Definition countIf {A : Type} (p : A → bool) (l : list A) : nat :=
  length (filter p l).

Definition isCreateOrder (e : Effect) : bool :=
  match e with CreateOrder _ => true | _ => false end.

Definition isConfirmDialog (d : AlertDialog) : bool :=
  bool_decide (title d = "Place Order").

Definition isSuccessDialog (d : AlertDialog) : bool :=
  bool_decide (title d = "Success").

Definition isConfirmShown (e : Effect) : bool :=
  match e with AlertShown d => isConfirmDialog d | _ => false end.

Definition isSuccessShown (e : Effect) : bool :=
  match e with AlertShown d => isSuccessDialog d | _ => false end.

(** Orders never outnumber the confirmations asked for, and successes never
    outnumber the orders that have settled. *)
Record orderInv (s : Screen) : Prop := {
  inv_confirmed :
    countIf isCreateOrder (trace s) + countIf isConfirmDialog (alerts s)
    ≤ countIf isConfirmShown (trace s);
  inv_succeeded :
    countIf isSuccessShown (trace s) + length (submitting s)
    ≤ countIf isCreateOrder (trace s);
}.

(** A flag that is set has a fetch in flight that will clear it. *)
Record flagInv (s : Screen) : Prop := {
  inv_loading : loading (view s) = true → fetching s ≠ [];
  inv_refreshing : refreshing (view s) = true → FromOnRefresh ∈ fetching s;
}.

(** Each order request in the trace comes after the confirmation dialog of
    its product. *)
Definition confirmedFirst (props : Props) (t : list Effect) : Prop :=
  ∀ t1 req t2, t = t1 ++ CreateOrder req :: t2 →
    ∃ product, req = orderRequest props product
               ∧ AlertShown (confirmDialog product) ∈ t1.

(** The text of the confirmation dialog, from the fields of a request. *)
Definition confirmText (req : OrderRequest.t) : string :=
  "Order " +:+ OrderRequest.product_name req +:+ "?" +:+ nl +:+ nl
  +:+ "Price: " +:+ rupee +:+ pretty (OrderRequest.price req) +:+ nl
  +:+ "MOQ: " +:+ pretty (OrderRequest.quantity req) +:+ " units".

(** A refresh is in flight when the buyer acknowledges a success: two
    fetches overlap. *)
Definition overlapping : list Event :=
  orderCard 0 ++ [OrderSettled 0 (inr {| order_id := "ORD-1" |});
                  PullToRefresh; PressAlertButton 0 0].

Definition overlapped : Screen :=
  loadProducts Direct
    (closeAlert 0
       (onRefresh
          (placeOrder_settled (inr {| order_id := "ORD-1" |})
             (submitDone 0 riceOrdered)))).

(** The order for [rice] has succeeded and its success dialog is open. *)
Definition succeeded : Screen :=
  placeOrder_settled (inr {| order_id := "ORD-1" |}) (submitDone 0 riceOrdered).

(** ** Events that settle a fetch *)

Definition isInventorySettled (ev : Event) : bool :=
  match ev with InventorySettled _ _ => true | _ => false end.

(** The event settles a [getInventory] call that [onRefresh] awaits. *)
Definition settlesRefresh (s : Screen) (ev : Event) : bool :=
  match ev with
  | InventorySettled call _ =>
      match fetching s !! call with
      | Some FromOnRefresh => true
      | _ => false
      end
  | _ => false
  end.

(** Some event of the run settles a [getInventory] call that [onRefresh]
    awaits. *)
Fixpoint refreshSettles (props : Props) (evs : list Event) (s : Screen) : bool :=
  match evs with
  | [] => false
  | ev :: evs =>
      settlesRefresh s ev
      || match step props ev s with
         | Some s' => refreshSettles props evs s'
         | None => false
         end
  end.

(** A refresh is overtaken: while it is in flight the buyer orders,
    acknowledges the success, and the reload settles first. *)
Definition overtaken : list Event :=
  [PullToRefresh; PressOrderButton 0; PressAlertButton 0 1;
   OrderSettled 0 (inr {| order_id := "ORD-1" |}); PressAlertButton 0 0;
   InventorySettled 1 (inr [rice])].

(** * Properties *)

(** ** [x || d] *)

Lemma js_or_None d : js_or None d = d.
Proof. reflexivity. Qed.

Lemma js_or_empty d : js_or (Some "") d = d.
Proof. reflexivity. Qed.

Lemma js_or_nonempty s d : s ≠ "" → js_or (Some s) d = s.
Proof. destruct s; [congruence | reflexivity]. Qed.

(** ** Inversion of [step] *)

Lemma step_PressOrderButton props card s s' :
  step props (PressOrderButton card) s = Some s' →
  ∃ product, products (view s) !! card = Some product
             ∧ s' = handlePlaceOrder product s.
Proof.
  unfold step, render.
  destruct (loading (view s) && negb (refreshing (view s))); [done |].
  case_bool_decide; [done |].
  destruct (products (view s) !! card) as [product |] eqn:E; [| done].
  intros [= <-]. eauto.
Qed.

Lemma step_PressAlertButton props dialog button s s' :
  step props (PressAlertButton dialog button) s = Some s' →
  ∃ d b, alerts s !! dialog = Some d ∧ alertButtons d !! button = Some b
         ∧ s' = runHandler props (onPress b) (closeAlert dialog s).
Proof.
  unfold step.
  destruct (alerts s !! dialog) as [d |]; [| done]. simpl.
  destruct (alertButtons d !! button) as [b |] eqn:Eb; [| done]. simpl.
  intros [= <-]. by exists d, b.
Qed.

Lemma step_InventorySettled props call r s s' :
  step props (InventorySettled call r) s = Some s' →
  ∃ k, fetching s !! call = Some k
       ∧ s' = match k with
              | Direct => loadProducts_settled r (fetchDone call s)
              | FromOnRefresh => onRefresh_settled r (fetchDone call s)
              end.
Proof.
  unfold step. destruct (fetching s !! call) as [k |]; [| done].
  intros [= <-]. eauto.
Qed.

Lemma step_OrderSettled props call r s s' :
  step props (OrderSettled call r) s = Some s' →
  is_Some (submitting s !! call)
  ∧ s' = placeOrder_settled r (submitDone call s).
Proof.
  unfold step. destruct (submitting s !! call) as [req |]; [| done].
  intros [= <-]. eauto.
Qed.

Lemma step_PullToRefresh props s s' :
  step props PullToRefresh s = Some s' →
  render (view s) ≠ LoadingView ∧ s' = onRefresh s.
Proof.
  unfold step. destruct (render (view s)); [done | |]; intros [= <-]; done.
Qed.

Lemma run_app props evs1 evs2 s :
  run props (evs1 ++ evs2) s = s' ← run props evs1 s; run props evs2 s'.
Proof.
  revert s. induction evs1 as [| ev evs1 IH]; intros s; simpl; [done |].
  destruct (step props ev s); simpl; [apply IH | done].
Qed.

Lemma reachable_mounted props : reachable props mounted.
Proof. by exists []. Qed.

Lemma reachable_step props ev s s' :
  reachable props s → step props ev s = Some s' → reachable props s'.
Proof.
  intros [evs Hrun] Hstep. exists (evs ++ [ev]).
  rewrite run_app, Hrun. simpl. by rewrite Hstep.
Qed.

(** Induction over the reachable screens. *)
Lemma reachable_ind props (P : Screen → Prop) :
  P mounted →
  (∀ ev s s', reachable props s → P s → step props ev s = Some s' → P s') →
  ∀ s, reachable props s → P s.
Proof.
  intros Hm Hs s [evs Hrun]. revert s Hrun.
  induction evs as [| ev evs IH] using rev_ind; intros s Hrun.
  - by injection Hrun as <-.
  - rewrite run_app in Hrun.
    destruct (run props evs mounted) as [s0 |] eqn:E; [| done].
    simpl in Hrun. destruct (step props ev s0) as [s1 |] eqn:Es; [| done].
    injection Hrun as <-. apply (Hs ev s0); [by exists evs | by apply IH | done].
Qed.

(** ** What reachable screens have called *)

Lemma traceInv_view props f s : traceInv props s → traceInv props (setView f s).
Proof. intros [??]; by split. Qed.

Lemma traceInv_fetchDone props i s :
  traceInv props s → traceInv props (fetchDone i s).
Proof. intros [??]; by split. Qed.

Lemma traceInv_submitDone props i s :
  traceInv props s → traceInv props (submitDone i s).
Proof. intros [??]; by split. Qed.

Lemma traceInv_closeAlert props i s :
  traceInv props s → traceInv props (closeAlert i s).
Proof.
  intros [Ha ??]; split; [| done ..].
  intros d Hd. apply Ha. simpl in Hd. by eapply list_elem_of_delete_inv.
Qed.

Lemma traceInv_Alert_alert props d s :
  screenDialog d → traceInv props s → traceInv props (Alert_alert d s).
Proof.
  intros Hd [Ha Ho Hf]; split; simpl.
  - intros d'. rewrite !elem_of_app, !list_elem_of_singleton.
    intros [Hin | Heq]; [destruct (Ha d' Hin); auto | subst d'; auto].
  - intros req. rewrite elem_of_app, list_elem_of_singleton.
    intros [Hin | [=]]. destruct (Ho req Hin) as (p & ? & ?).
    exists p. rewrite elem_of_app. auto.
  - intros d' o. rewrite elem_of_app, list_elem_of_singleton.
    intros [Hin | [=]]. eauto.
Qed.

Lemma traceInv_loadProducts props k s :
  traceInv props s → traceInv props (loadProducts k s).
Proof.
  intros [Ha Ho Hf]; split; simpl.
  - intros d Hd. destruct (Ha d Hd). rewrite elem_of_app. auto.
  - intros req. rewrite elem_of_app, list_elem_of_singleton.
    intros [Hin | [=]]. destruct (Ho req Hin) as (p & ? & ?).
    exists p. rewrite elem_of_app. auto.
  - intros d o. rewrite elem_of_app, list_elem_of_singleton.
    intros [Hin | [= -> ->]]; eauto.
Qed.

Lemma traceInv_placeOrder props product s :
  AlertShown (confirmDialog product) ∈ trace s →
  traceInv props s → traceInv props (placeOrder props product s).
Proof.
  intros Hshown [Ha Ho Hf]; split; simpl.
  - intros d Hd. destruct (Ha d Hd). rewrite elem_of_app. auto.
  - intros req. rewrite elem_of_app, list_elem_of_singleton.
    intros [Hin | [= ->]].
    + destruct (Ho req Hin) as (p & ? & ?). exists p. rewrite elem_of_app. auto.
    + exists product. rewrite elem_of_app. auto.
  - intros d o. rewrite elem_of_app, list_elem_of_singleton.
    intros [Hin | [=]]. eauto.
Qed.

(** The handler of a button tells which dialog the button belongs to. *)
Lemma screenDialog_handler d b :
  screenDialog d → b ∈ alertButtons d →
  match onPress b with
  | NoHandler => True
  | PlaceOrderPressed product => d = confirmDialog product
  | ReloadPressed => ∃ order, d = successDialog order
  end.
Proof.
  intros [product | order | error fallback]; unfold alertButtons; simpl;
    rewrite ?elem_of_cons, ?list_elem_of_singleton, ?elem_of_nil.
  - intros [-> | [-> | []]]; done.
  - intros [-> | []]; simpl; eauto.
  - intros [-> | []]; done.
Qed.

Lemma traceInv_mounted props : traceInv props mounted.
Proof.
  split; simpl.
  - intros d Hd. by apply elem_of_nil in Hd.
  - intros req. rewrite list_elem_of_singleton. done.
  - intros d o. rewrite list_elem_of_singleton. by intros [= -> ->].
Qed.

Lemma traceInv_step props ev s s' :
  traceInv props s → step props ev s = Some s' → traceInv props s'.
Proof.
  intros Hinv Hstep. destruct ev as [| card | dialog button | call r | call r].
  - apply step_PullToRefresh in Hstep as [_ ->].
    by apply traceInv_loadProducts, traceInv_view.
  - apply step_PressOrderButton in Hstep as (product & _ & ->).
    apply traceInv_Alert_alert; [constructor | done].
  - apply step_PressAlertButton in Hstep as (d & b & Hd & Hb & ->).
    apply list_elem_of_lookup_2 in Hd, Hb.
    destruct (inv_alerts _ _ Hinv d Hd) as [Hsd Hshown].
    pose proof (screenDialog_handler d b Hsd Hb) as Hh.
    apply (traceInv_closeAlert _ dialog) in Hinv.
    destruct (onPress b) as [| product |]; simpl.
    + done.
    + subst d. by apply traceInv_placeOrder.
    + by apply traceInv_loadProducts.
  - apply step_InventorySettled in Hstep as (k & _ & ->).
    apply (traceInv_fetchDone _ call) in Hinv.
    assert (traceInv props (loadProducts_settled r (fetchDone call s))).
    { unfold loadProducts_settled. apply traceInv_view.
      destruct r as [error | data];
        [apply traceInv_Alert_alert; [constructor | done]
        | by apply traceInv_view]. }
    destruct k; [done | by apply traceInv_view].
  - apply step_OrderSettled in Hstep as [_ ->].
    apply (traceInv_submitDone _ call) in Hinv.
    destruct r as [error | order]; simpl;
      (apply traceInv_Alert_alert; [constructor | done]).
Qed.

Lemma reachable_traceInv props s : reachable props s → traceInv props s.
Proof.
  intros Hr. induction Hr as [| ev s s' _ IH Hstep] using reachable_ind.
  - apply traceInv_mounted.
  - by eapply traceInv_step.
Qed.

(** Every submitted request is the object literal of [handlePlaceOrder],
    built from the product of a confirmation dialog shown before. *)
Lemma submitted_request_derived props s req :
  reachable props s → CreateOrder req ∈ trace s →
  ∃ product, AlertShown (confirmDialog product) ∈ trace s
             ∧ req = orderRequest props product.
Proof. intros Hr. apply (inv_orders _ _ (reachable_traceInv _ _ Hr)). Qed.

(** A confirmation dialog is only ever shown for a product that is on
    screen when its order button is pressed. *)
Lemma handlePlaceOrder_selected props card s s' :
  step props (PressOrderButton card) s = Some s' →
  ∃ product, products (view s) !! card = Some product
             ∧ render (view s) = ProductCards (products (view s))
             ∧ alerts s' = alerts s ++ [confirmDialog product]
             ∧ trace s' = trace s ++ [AlertShown (confirmDialog product)]
             ∧ view s' = view s ∧ fetching s' = fetching s
             ∧ submitting s' = submitting s.
Proof.
  intros Hstep.
  pose proof (step_PressOrderButton _ _ _ _ Hstep) as (product & Hp & ->).
  exists product. split; [done |]. split; [| done].
  unfold step, render in *.
  destruct (loading (view s) && negb (refreshing (view s))); [done |].
  by case_bool_decide.
Qed.

Lemma riceOrdered_reachable : reachable defaultProps riceOrdered.
Proof. by exists (orderCard 0). Qed.

Lemma saltOrdered_reachable : reachable defaultProps saltOrdered.
Proof. by exists (orderCard 1). Qed.

Lemma riceOrdered_request :
  CreateOrder (orderRequest defaultProps rice) ∈ trace riceOrdered.
Proof. by apply (list_elem_of_lookup_2 _ 2). Qed.

Lemma saltOrdered_request :
  CreateOrder (orderRequest defaultProps salt) ∈ trace saltOrdered.
Proof. by apply (list_elem_of_lookup_2 _ 2). Qed.

(** The request keeps the product of the dialog even when the catalog is
    replaced between selection and confirmation. *)
Example price_captured_at_selection :
  let dearRice :=
    Product.mk "P1" "D1" "Rice" (Some "Grain") 999 10 ["UPI"; "COD"] None 500 ["Pune"] in
  (λ s, (Product.price <$> products (view s), last (trace s)))
    <$> run defaultProps
          [InventorySettled 0 (inr [rice]); PressOrderButton 0; PullToRefresh;
           InventorySettled 0 (inr [dearRice]); PressAlertButton 0 1] mounted
  = Some ([999%Z], Some (CreateOrder (orderRequest defaultProps rice))).
Proof. reflexivity. Qed.

(** ** Order requests *)

(** C1. Every order request the screen submits was built from the product of
    a confirmation dialog it showed, and its quantity is that product's
    minimum order quantity. *)
Theorem submitted_quantity_is_moq props s req :
  reachable props s → CreateOrder req ∈ trace s →
  ∃ product, AlertShown (confirmDialog product) ∈ trace s
             ∧ req = orderRequest props product
             ∧ OrderRequest.quantity req = Product.moq product.
Proof.
  intros Hr Hin.
  destruct (submitted_request_derived _ _ _ Hr Hin) as (product & ? & ->).
  by exists product.
Qed.

Lemma submitted_quantity_is_moq_witness :
  ∃ product, AlertShown (confirmDialog product) ∈ trace riceOrdered
             ∧ orderRequest defaultProps rice = orderRequest defaultProps product
             ∧ OrderRequest.quantity (orderRequest defaultProps rice)
               = Product.moq product.
Proof.
  apply (submitted_quantity_is_moq defaultProps riceOrdered).
  - exists (orderCard 0). reflexivity.
  - apply (list_elem_of_lookup_2 _ 2). reflexivity.
Defined.

(** C2, as stated, fails: [salt] lists the empty string as its first
    payment mode, and the submitted request carries "COD" instead. *)
Lemma blank_first_payment_mode_counterexample :
  Product.payment_modes salt = [""; "UPI"]
  ∧ reachable defaultProps saltOrdered
  ∧ CreateOrder (orderRequest defaultProps salt) ∈ trace saltOrdered
  ∧ OrderRequest.payment_mode (orderRequest defaultProps salt) = "COD"
  ∧ Some (OrderRequest.payment_mode (orderRequest defaultProps salt))
    ≠ Product.payment_modes salt !! 0%nat.
Proof.
  split; [reflexivity |]. split; [apply saltOrdered_reachable |].
  split; [apply saltOrdered_request |]. split; [reflexivity | discriminate].
Qed.

(** C2, amended. The payment mode of every submitted request is "COD" when
    the product lists no payment mode or lists the empty string first, and
    the product's first payment mode otherwise. *)
Theorem submitted_payment_mode props s req :
  reachable props s → CreateOrder req ∈ trace s →
  ∃ product, AlertShown (confirmDialog product) ∈ trace s
             ∧ req = orderRequest props product
             ∧ (Product.payment_modes product = [] →
                OrderRequest.payment_mode req = "COD")
             ∧ (∀ ms, Product.payment_modes product = "" :: ms →
                OrderRequest.payment_mode req = "COD")
             ∧ (∀ m ms, Product.payment_modes product = m :: ms → m ≠ "" →
                OrderRequest.payment_mode req = m).
Proof.
  intros Hr Hin.
  destruct (submitted_request_derived _ _ _ Hr Hin) as (product & ? & ->).
  exists product. repeat split; [done | | |]; simpl.
  - by intros ->.
  - by intros ms ->.
  - intros m ms -> Hm. by apply js_or_nonempty.
Qed.

Lemma submitted_payment_mode_witness :
  ∃ product, AlertShown (confirmDialog product) ∈ trace riceOrdered
             ∧ orderRequest defaultProps rice = orderRequest defaultProps product
             ∧ (Product.payment_modes product = [] →
                OrderRequest.payment_mode (orderRequest defaultProps rice) = "COD")
             ∧ (∀ ms, Product.payment_modes product = "" :: ms →
                OrderRequest.payment_mode (orderRequest defaultProps rice) = "COD")
             ∧ (∀ m ms, Product.payment_modes product = m :: ms → m ≠ "" →
                OrderRequest.payment_mode (orderRequest defaultProps rice) = m).
Proof.
  apply (submitted_payment_mode defaultProps riceOrdered).
  - exists (orderCard 0). reflexivity.
  - apply (list_elem_of_lookup_2 _ 2). reflexivity.
Defined.

(** C8. Every submitted request carries the fixed address 'Default Address',
    the unit price of the product captured by the confirmation dialog, and
    the [userId] prop, or 'USER001' when the prop is not supplied. *)
Theorem submitted_address_price_user props s req :
  reachable props s → CreateOrder req ∈ trace s →
  ∃ product, AlertShown (confirmDialog product) ∈ trace s
             ∧ req = orderRequest props product
             ∧ OrderRequest.delivery_address req = "Default Address"
             ∧ OrderRequest.price req = Product.price product
             ∧ OrderRequest.user_id req
               = match userId props with
                 | Some supplied => supplied
                 | None => "USER001"
                 end.
Proof.
  intros Hr Hin.
  destruct (submitted_request_derived _ _ _ Hr Hin) as (product & ? & ->).
  exists product. do 4 (split; [done |]). simpl. unfold userIdOf.
  by destruct (userId props).
Qed.

Lemma submitted_address_price_user_witness :
  ∃ product, AlertShown (confirmDialog product) ∈ trace riceOrdered
             ∧ orderRequest defaultProps rice = orderRequest defaultProps product
             ∧ OrderRequest.delivery_address (orderRequest defaultProps rice)
               = "Default Address"
             ∧ OrderRequest.price (orderRequest defaultProps rice)
               = Product.price product
             ∧ OrderRequest.user_id (orderRequest defaultProps rice) = "USER001".
Proof.
  apply (submitted_address_price_user defaultProps riceOrdered).
  - exists (orderCard 0). reflexivity.
  - apply (list_elem_of_lookup_2 _ 2). reflexivity.
Defined.

Example supplied_user_id :
  OrderRequest.user_id (orderRequest buyer7 rice) = "USER007"
  ∧ OrderRequest.user_id (orderRequest defaultProps rice) = "USER001".
Proof. by split. Qed.

(** ** The catalog loader *)

Lemma fetchCount_app t1 t2 : fetchCount (t1 ++ t2) = fetchCount t1 + fetchCount t2.
Proof. unfold fetchCount. by rewrite filter_app, length_app. Qed.

Lemma fetchCount_snoc t e :
  fetchCount (t ++ [e]) = fetchCount t + (if isGetInventory e then 1 else 0).
Proof. rewrite fetchCount_app. f_equal. by destruct e. Qed.

Lemma elem_of_delete_other {A : Type} (l : list A) (i : nat) (x y : A) :
  x ∈ l → l !! i = Some y → x ≠ y → x ∈ delete i l.
Proof.
  intros Hx Hi Hne. rewrite delete_take_drop.
  rewrite <- (take_drop_middle l i y Hi) in Hx.
  rewrite elem_of_app, elem_of_cons in Hx. rewrite elem_of_app.
  destruct Hx as [? | [? | ?]]; [by left | done | by right].
Qed.

Lemma render_LoadingView v :
  render v = LoadingView ↔ loading v = true ∧ refreshing v = false.
Proof.
  unfold render. destruct (loading v), (refreshing v); simpl;
    try case_bool_decide; split; try done; by intros [??].
Qed.

Lemma refreshing_not_loader v : refreshing v = true → render v ≠ LoadingView.
Proof. intros Hr. rewrite render_LoadingView. intros [_ ?]. congruence. Qed.

(** An event that settles no fetch leaves a set flag set. *)
Lemma step_keeps_flags props ev s s' :
  step props ev s = Some s' → isInventorySettled ev = false →
  (loading (view s) = true → loading (view s') = true)
  ∧ (refreshing (view s) = true → refreshing (view s') = true).
Proof.
  intros Hstep Hev. destruct ev as [| card | dialog button | call r | call r];
    [| | | done |].
  - apply step_PullToRefresh in Hstep as [_ ->]. by split.
  - apply step_PressOrderButton in Hstep as (product & _ & ->). by split.
  - apply step_PressAlertButton in Hstep as (d & b & _ & _ & ->).
    by destruct (onPress b); split.
  - apply step_OrderSettled in Hstep as [_ ->]. by destruct r; split.
Qed.

Lemma run_keeps_flags props evs s s' :
  run props evs s = Some s' →
  Forall (λ ev, isInventorySettled ev = false) evs →
  loading (view s) = true → refreshing (view s) = true →
  loading (view s') = true ∧ refreshing (view s') = true.
Proof.
  revert s. induction evs as [| ev evs IH]; intros s Hrun Hall Hl Hr; simpl in Hrun.
  - by injection Hrun as <-.
  - destruct (step props ev s) as [s0 |] eqn:Hstep; [| done]. simpl in Hrun.
    apply Forall_cons in Hall as [Hev Hall].
    destruct (step_keeps_flags _ _ _ _ Hstep Hev) as [Hl' Hr'].
    apply (IH s0); auto.
Qed.

(** As long as no fetch of a refresh settles, [refreshing] stays set and a
    fetch of a refresh stays in flight. *)
Lemma step_keeps_refreshing props ev s s' :
  step props ev s = Some s' → settlesRefresh s ev = false →
  refreshing (view s) = true ∧ FromOnRefresh ∈ fetching s →
  refreshing (view s') = true ∧ FromOnRefresh ∈ fetching s'.
Proof.
  intros Hstep Hev [Hr Hin].
  destruct ev as [| card | dialog button | call r | call r].
  - apply step_PullToRefresh in Hstep as [_ ->]. simpl.
    split; [done |]. rewrite elem_of_app. by left.
  - apply step_PressOrderButton in Hstep as (product & _ & ->). by split.
  - apply step_PressAlertButton in Hstep as (d & b & _ & _ & ->).
    destruct (onPress b); simpl; (split; [done |]); [done | done |].
    rewrite elem_of_app. by left.
  - apply step_InventorySettled in Hstep as (k & Hk & ->).
    simpl in Hev. rewrite Hk in Hev. destruct k; [| done].
    assert (FromOnRefresh ∈ delete call (fetching s)).
    { by apply (elem_of_delete_other _ _ _ Direct). }
    by destruct r.
  - apply step_OrderSettled in Hstep as [_ ->]. by destruct r; split.
Qed.

Lemma run_keeps_refreshing props evs s s' :
  run props evs s = Some s' → refreshSettles props evs s = false →
  refreshing (view s) = true ∧ FromOnRefresh ∈ fetching s →
  refreshing (view s') = true ∧ FromOnRefresh ∈ fetching s'.
Proof.
  revert s. induction evs as [| ev evs IH]; intros s Hrun Hno Hs; simpl in *.
  - by injection Hrun as <-.
  - destruct (step props ev s) as [s0 |] eqn:Hstep; [| done]. simpl in Hrun.
    apply orb_false_iff in Hno as [Hev Hno].
    apply (IH s0); [done | done |]. by eapply step_keeps_refreshing.
Qed.

(** C3, as stated, fails: pulling to refresh on an idle screen sets
    [loading] as well as [refreshing]. *)
Lemma refresh_sets_loading_counterexample :
  loading (view idleScreen) = false
  ∧ (λ s, (refreshing (view s), loading (view s)))
      <$> step defaultProps PullToRefresh idleScreen
    = Some (true, true).
Proof. by split. Qed.

(** C3, amended. An explicit refresh sets [refreshing] and [loading] as
    well.  Both flags stay set through every event until a [getInventory]
    call settles.  [refreshing] stays set, a refresh's fetch stays in flight
    and the full-screen loading view is not rendered, until the fetch of a
    refresh settles; [loading] is cleared by whichever fetch settles first,
    so an overlapping load that settles earlier clears [loading] and leaves
    [refreshing] as it is.  When the fetch of a refresh settles both flags
    are cleared, whether it resolved or rejected. *)
Theorem refresh_flags props s s1 :
  step props PullToRefresh s = Some s1 →
  refreshing (view s1) = true
  ∧ loading (view s1) = true
  ∧ render (view s1) ≠ LoadingView
  ∧ fetching s1 = fetching s ++ [FromOnRefresh]
  ∧ (∀ evs s2,
       run props evs s1 = Some s2 →
       Forall (λ ev, isInventorySettled ev = false) evs →
       refreshing (view s2) = true ∧ loading (view s2) = true)
  ∧ (∀ evs s2,
       run props evs s1 = Some s2 → refreshSettles props evs s1 = false →
       refreshing (view s2) = true
       ∧ FromOnRefresh ∈ fetching s2
       ∧ render (view s2) ≠ LoadingView)
  ∧ (∀ s2 call r s3,
       fetching s2 !! call = Some Direct →
       step props (InventorySettled call r) s2 = Some s3 →
       loading (view s3) = false ∧ refreshing (view s3) = refreshing (view s2))
  ∧ ∀ s2 call r s3,
      fetching s2 !! call = Some FromOnRefresh →
      step props (InventorySettled call r) s2 = Some s3 →
      loading (view s3) = false ∧ refreshing (view s3) = false.
Proof.
  intros Hstep. apply step_PullToRefresh in Hstep as [_ ->].
  do 2 (split; [done |]). split; [by apply refreshing_not_loader |].
  split; [done |]. split; [| split; [| split]].
  - intros evs s2 Hrun Hall.
    by destruct (run_keeps_flags _ _ _ _ Hrun Hall).
  - intros evs s2 Hrun Hno.
    destruct (run_keeps_refreshing _ _ _ _ Hrun Hno) as [Hr Hin].
    { split; [done |]. simpl. rewrite elem_of_app, list_elem_of_singleton. by right. }
    split; [done |]. split; [done | by apply refreshing_not_loader].
  - intros s2 call r s3 Hk Hsettle.
    apply step_InventorySettled in Hsettle as (k & Hk' & ->).
    rewrite Hk in Hk'. injection Hk' as <-. by destruct r.
  - intros s2 call r s3 Hk Hsettle.
    apply step_InventorySettled in Hsettle as (k & Hk' & ->).
    rewrite Hk in Hk'. injection Hk' as <-. by destruct r.
Qed.

Lemma refresh_flags_witness :
  refreshing (view (onRefresh idleScreen)) = true
  ∧ loading (view (onRefresh idleScreen)) = true
  ∧ render (view (onRefresh idleScreen)) ≠ LoadingView
  ∧ fetching (onRefresh idleScreen) = fetching idleScreen ++ [FromOnRefresh]
  ∧ (∀ evs s2,
       run defaultProps evs (onRefresh idleScreen) = Some s2 →
       Forall (λ ev, isInventorySettled ev = false) evs →
       refreshing (view s2) = true ∧ loading (view s2) = true)
  ∧ (∀ evs s2,
       run defaultProps evs (onRefresh idleScreen) = Some s2 →
       refreshSettles defaultProps evs (onRefresh idleScreen) = false →
       refreshing (view s2) = true
       ∧ FromOnRefresh ∈ fetching s2
       ∧ render (view s2) ≠ LoadingView)
  ∧ (∀ s2 call r s3,
       fetching s2 !! call = Some Direct →
       step defaultProps (InventorySettled call r) s2 = Some s3 →
       loading (view s3) = false ∧ refreshing (view s3) = refreshing (view s2))
  ∧ ∀ s2 call r s3,
      fetching s2 !! call = Some FromOnRefresh →
      step defaultProps (InventorySettled call r) s2 = Some s3 →
      loading (view s3) = false ∧ refreshing (view s3) = false.
Proof.
  apply (refresh_flags defaultProps idleScreen (onRefresh idleScreen)).
  reflexivity.
Defined.

(** A reload that overlaps a refresh and settles first switches [loading]
    off while the refresh is still in flight with [refreshing] on. *)
Example refresh_overtaken_by_reload :
  (λ s, (view s, fetching s)) <$> run defaultProps overtaken idleScreen
  = Some ({| products := [rice]; loading := false; refreshing := true |},
          [FromOnRefresh])
  ∧ refreshSettles defaultProps overtaken idleScreen = false.
Proof. by vm_compute. Qed.

(** The refresh of the idle sample screen, run to completion both ways. *)
Example refresh_runs :
  (view <$> run defaultProps
     [PullToRefresh; InventorySettled 0 (inr [sugar])] idleScreen
   = Some {| products := [sugar]; loading := false; refreshing := false |})
  ∧ (view <$> run defaultProps
       [PullToRefresh; InventorySettled 0 (inl {| message := None |})] idleScreen
     = Some {| products := [rice; salt; sugar]; loading := false;
               refreshing := false |}).
Proof. by split. Qed.

(** C4. When the fetch of a load rejects - whoever called [loadProducts] -
    the products are the ones from before, exactly one error dialog is
    shown, and no new fetch is issued: not by the handler, and not by the
    dialog, whose only button has no handler.  Starting a load does not touch
    the products either. *)
Theorem failed_load_keeps_products props s call error s' :
  step props (InventorySettled call (inl error)) s = Some s' →
  products (view s') = products (view s)
  ∧ trace s' = trace s ++ [AlertShown (errorDialog error "Failed to load products")]
  ∧ alerts s' = alerts s ++ [errorDialog error "Failed to load products"]
  ∧ alertButtons (errorDialog error "Failed to load products")
    = [ {| text := "OK"; style := None; onPress := NoHandler |} ]
  ∧ fetching s' = delete call (fetching s)
  ∧ fetchCount (trace s') = fetchCount (trace s)
  ∧ (∀ k s0, products (view (loadProducts k s0)) = products (view s0))
  ∧ (∀ s0, products (view (onRefresh s0)) = products (view s0)).
Proof.
  intros Hstep. apply step_InventorySettled in Hstep as (k & _ & ->).
  destruct k; simpl; rewrite ?fetchCount_snoc; simpl;
    repeat split; try done; lia.
Qed.

Lemma failed_load_keeps_products_witness :
  products (view (loadProducts_settled (inl {| message := Some "Network Error" |})
                    (fetchDone 0 mounted)))
  = products (view mounted).
Proof.
  apply (failed_load_keeps_products defaultProps mounted 0
           {| message := Some "Network Error" |}).
  reflexivity.
Defined.

(** C7. Every call of [loadProducts] makes exactly one [getInventory] call,
    with no distributor and [onlyAvailable] true; no reachable trace has an
    inventory call with other arguments; and when the call resolves, the
    products are exactly the list received, in the order received, without a
    further call. *)
Theorem load_fetches_once_and_replaces props :
  (∀ k s, trace (loadProducts k s) = trace s ++ [GetInventory None (Some true)]
          ∧ fetching (loadProducts k s) = fetching s ++ [k])
  ∧ (∀ s, trace (onRefresh s) = trace s ++ [GetInventory None (Some true)]
          ∧ fetching (onRefresh s) = fetching s ++ [FromOnRefresh])
  ∧ (∀ s d o, reachable props s → GetInventory d o ∈ trace s →
              d = None ∧ o = Some true)
  ∧ (∀ s call data s',
       step props (InventorySettled call (inr data)) s = Some s' →
       products (view s') = data
       ∧ trace s' = trace s
       ∧ fetching s' = delete call (fetching s)).
Proof.
  split; [done |]. split; [done |]. split.
  - intros s d o Hr. apply (inv_fetches _ _ (reachable_traceInv _ _ Hr)).
  - intros s call data s' Hstep.
    apply step_InventorySettled in Hstep as (k & _ & ->). by destruct k.
Qed.

Lemma load_fetches_once_and_replaces_witness :
  products (view (loadProducts_settled (inr [sugar; rice]) (fetchDone 0 mounted)))
  = [sugar; rice]
  ∧ trace (loadProducts_settled (inr [sugar; rice]) (fetchDone 0 mounted))
    = trace mounted
  ∧ fetching (loadProducts_settled (inr [sugar; rice]) (fetchDone 0 mounted))
    = delete 0 (fetching mounted).
Proof.
  apply (load_fetches_once_and_replaces defaultProps).
  reflexivity.
Defined.

(** C10. The products start empty, so a failed initial load leaves the same
    view state as an initial load that returned no product - no products,
    both flags off - and the screen renders the empty state. *)
Theorem failed_initial_load_looks_empty props error :
  products initialView = []
  ∧ ∃ failed empty,
      step props (InventorySettled 0 (inl error)) mounted = Some failed
      ∧ step props (InventorySettled 0 (inr [])) mounted = Some empty
      ∧ view failed = view empty
      ∧ view failed = {| products := []; loading := false; refreshing := false |}
      ∧ render (view failed) = EmptyState.
Proof. split; [done |]. by eexists _, _. Qed.

(** ** The order submitter *)

(** C9. Pressing 'Cancel' on an open confirmation dialog only closes the
    dialog: the view state is unchanged, nothing is called and no dialog is
    shown, and no request or fetch is put in flight. *)
Theorem cancel_has_no_effect props s dialog product :
  alerts s !! dialog = Some (confirmDialog product) →
  text <$> alertButtons (confirmDialog product) !! 0%nat = Some "Cancel"
  ∧ ∃ s', step props (PressAlertButton dialog 0) s = Some s'
          ∧ view s' = view s
          ∧ trace s' = trace s
          ∧ submitting s' = submitting s
          ∧ fetching s' = fetching s
          ∧ alerts s' = delete dialog (alerts s).
Proof.
  intros Hd. split; [done |].
  exists (closeAlert dialog s). unfold step. rewrite Hd. by simpl.
Qed.

Lemma cancel_has_no_effect_witness :
  ∃ s', step defaultProps (PressAlertButton 0 0) confirming = Some s'
        ∧ view s' = view confirming
        ∧ trace s' = trace confirming
        ∧ submitting s' = submitting confirming
        ∧ fetching s' = fetching confirming
        ∧ alerts s' = delete 0%nat (alerts confirming).
Proof.
  apply (cancel_has_no_effect defaultProps confirming 0 rice).
  reflexivity.
Defined.

(** Selecting a product and cancelling brings the screen back to where it
    was, but for the record of the dialog in the trace. *)
Example select_then_cancel :
  run defaultProps [PressOrderButton 0; PressAlertButton 0 0] idleScreen
  = Some (emit (AlertShown (confirmDialog rice)) idleScreen).
Proof. reflexivity. Qed.

(** C5. When [createOrder] rejects, the view state - the products with it -
    is unchanged, and exactly one dialog is shown, titled 'Error': its text
    is the error's message when there is a non-empty one, and 'Failed to
    place order' when there is none ([||] treats an empty message as
    none). *)
Theorem failed_order_keeps_products props s call error s' :
  step props (OrderSettled call (inl error)) s = Some s' →
  view s' = view s
  ∧ ∃ notice, trace s' = trace s ++ [AlertShown notice]
              ∧ title notice = "Error"
              ∧ (∀ m, message error = Some m → m ≠ "" → body notice = m)
              ∧ (message error = None → body notice = "Failed to place order")
              ∧ (message error = Some "" → body notice = "Failed to place order").
Proof.
  intros Hstep. apply step_OrderSettled in Hstep as [_ ->].
  split; [done |]. exists (errorDialog error "Failed to place order").
  do 2 (split; [done |]). simpl. split; [| split].
  - intros m -> Hm. by apply js_or_nonempty.
  - by intros ->.
  - by intros ->.
Qed.

Lemma failed_order_keeps_products_witness :
  view (placeOrder_settled (inl {| message := Some "Insufficient stock" |})
          (submitDone 0 riceOrdered))
  = view riceOrdered
  ∧ ∃ notice,
      trace (placeOrder_settled (inl {| message := Some "Insufficient stock" |})
               (submitDone 0 riceOrdered))
      = trace riceOrdered ++ [AlertShown notice]
      ∧ title notice = "Error"
      ∧ (∀ m, Some "Insufficient stock" = Some m → m ≠ "" → body notice = m)
      ∧ (Some "Insufficient stock" = None → body notice = "Failed to place order")
      ∧ (Some "Insufficient stock" = Some "" → body notice = "Failed to place order").
Proof.
  apply (failed_order_keeps_products defaultProps riceOrdered 0
           {| message := Some "Insufficient stock" |}).
  reflexivity.
Defined.

(** Scenario E of the specification. *)
Example insufficient_stock :
  (λ s, (products (view s), last (trace s)))
    <$> run defaultProps
          (orderCard 0 ++ [OrderSettled 0 (inl {| message := Some "Insufficient stock" |})])
          mounted
  = Some ([rice; salt; sugar],
          Some (AlertShown {| title := "Error"; body := "Insufficient stock";
                              buttons := None |})).
Proof. reflexivity. Qed.

Lemma step_fetchCount props ev s s' :
  step props ev s = Some s' →
  fetchCount (trace s') = fetchCount (trace s) + (if loadsOn s ev then 1 else 0).
Proof.
  intros Hstep. destruct ev as [| card | dialog button | call r | call r].
  - apply step_PullToRefresh in Hstep as [_ ->]. simpl.
    by rewrite fetchCount_snoc.
  - apply step_PressOrderButton in Hstep as (product & _ & ->). simpl.
    rewrite fetchCount_snoc. simpl. lia.
  - apply step_PressAlertButton in Hstep as (d & b & Hd & Hb & ->). simpl.
    rewrite Hd. simpl. rewrite Hb.
    destruct b as [t st [| product |]]; simpl; rewrite ?fetchCount_snoc; simpl; lia.
  - apply step_InventorySettled in Hstep as (k & _ & ->).
    destruct k, r; simpl; rewrite ?fetchCount_snoc; simpl; lia.
  - apply step_OrderSettled in Hstep as [_ ->].
    destruct r; simpl; rewrite ?fetchCount_snoc; simpl; lia.
Qed.

(** On a reachable screen the reload handler sits on success dialogs only. *)
Lemma reload_button_of_success props s dialog button d b :
  reachable props s →
  alerts s !! dialog = Some d → alertButtons d !! button = Some b →
  onPress b = ReloadPressed → ∃ order, d = successDialog order.
Proof.
  intros Hr Hd Hb Hh. apply list_elem_of_lookup_2 in Hd, Hb.
  destruct (inv_alerts _ _ (reachable_traceInv _ _ Hr) d Hd) as [Hsd _].
  pose proof (screenDialog_handler d b Hsd Hb) as H. by rewrite Hh in H.
Qed.

(** An inventory call is only ever made by a pull to refresh or by the
    button of a success dialog. *)
Lemma load_sources props ev s s' :
  reachable props s → step props ev s = Some s' →
  fetchCount (trace s') ≠ fetchCount (trace s) →
  ev = PullToRefresh
  ∨ ∃ dialog order, ev = PressAlertButton dialog 0
                    ∧ alerts s !! dialog = Some (successDialog order).
Proof.
  intros Hr Hstep Hne. rewrite (step_fetchCount _ _ _ _ Hstep) in Hne.
  destruct (loadsOn s ev) eqn:Hl; [| lia]. clear Hne.
  destruct ev as [| card | dialog button | call r | call r]; try done; [by left |].
  right. apply step_PressAlertButton in Hstep as (d & b & Hd & Hb & _).
  simpl in Hl. rewrite Hd in Hl. simpl in Hl. rewrite Hb in Hl.
  destruct b as [t st h]. destruct h; try done.
  destruct (reload_button_of_success _ _ _ _ _ _ Hr Hd Hb eq_refl) as [order ->].
  destruct button as [| button]; [by exists dialog, order |].
  by destruct button.
Qed.

(** C6. When a submission settles, no inventory call is made and none is put
    in flight, and the request is no longer in flight.  The dialog it opens
    has one button.  After a success, pressing it makes exactly one
    [loadProducts] call and closes the dialog; after a failure, pressing it
    only closes the dialog.  Apart from pulling to refresh, pressing the
    button of a success dialog is the only event that makes an inventory
    call. *)
Theorem reload_only_after_success_acknowledged props s call r s1 :
  step props (OrderSettled call r) s = Some s1 →
  trace s1 = trace s ++ [AlertShown (match r with
                                     | inr order => successDialog order
                                     | inl error => errorDialog error "Failed to place order"
                                     end)]
  ∧ fetchCount (trace s1) = fetchCount (trace s)
  ∧ fetching s1 = fetching s
  ∧ submitting s1 = delete call (submitting s)
  ∧ step props (PressAlertButton (length (alerts s)) 1) s1 = None
  ∧ ∃ s2, step props (PressAlertButton (length (alerts s)) 0) s1 = Some s2
          ∧ alerts s2 = alerts s
          ∧ submitting s2 = submitting s1
          ∧ match r with
            | inr _ =>
                trace s2 = trace s1 ++ [GetInventory None (Some true)]
                ∧ fetching s2 = fetching s ++ [Direct]
                ∧ fetchCount (trace s2) = fetchCount (trace s) + 1
            | inl _ =>
                trace s2 = trace s1
                ∧ fetching s2 = fetching s
                ∧ fetchCount (trace s2) = fetchCount (trace s)
            end
          ∧ ∀ ev t t',
              reachable props t → step props ev t = Some t' →
              fetchCount (trace t') ≠ fetchCount (trace t) →
              ev = PullToRefresh
              ∨ ∃ dialog order, ev = PressAlertButton dialog 0
                                ∧ alerts t !! dialog = Some (successDialog order).
Proof.
  intros Hstep. apply step_OrderSettled in Hstep as [_ ->].
  pose proof (load_sources props) as Hsources.
  assert (Hlast : ∀ d : AlertDialog,
            (alerts s ++ [d]) !! length (alerts s) = Some d).
  { intros d. by rewrite lookup_app_r, Nat.sub_diag. }
  assert (Hdel : ∀ d : AlertDialog,
            delete (length (alerts s)) (alerts s ++ [d]) = alerts s).
  { intros d. by rewrite delete_middle, app_nil_r. }
  destruct r as [error | order]; simpl; rewrite ?fetchCount_snoc; simpl;
    rewrite !Hlast; simpl; (split; [done |]); (split; [lia |]);
    do 3 (split; [done |]); eexists; (split; [done |]); simpl;
    rewrite Hdel, ?fetchCount_snoc; simpl;
    repeat split; try done; lia.
Qed.

Lemma reload_only_after_success_acknowledged_witness :
  ∃ s2, step defaultProps (PressAlertButton 0 0)
          (placeOrder_settled (inr {| order_id := "ORD-123" |})
             (submitDone 0 riceOrdered)) = Some s2
        ∧ fetchCount (trace s2) = fetchCount (trace riceOrdered) + 1.
Proof.
  destruct (reload_only_after_success_acknowledged defaultProps riceOrdered 0
              (inr {| order_id := "ORD-123" |})
              (placeOrder_settled (inr {| order_id := "ORD-123" |})
                 (submitDone 0 riceOrdered)) eq_refl)
    as (_ & _ & _ & _ & _ & s2 & Hstep & _ & _ & (_ & _ & Hcount) & _).
  exists s2. split; [exact Hstep | exact Hcount].
Defined.

(** Scenario D of the specification, and its failing counterpart. *)
Example success_then_reload :
  (λ s, (fetchCount (trace s), last (trace s), fetching s))
    <$> run defaultProps
          (orderCard 0 ++ [OrderSettled 0 (inr {| order_id := "ORD-123" |});
                           PressAlertButton 0 0]) mounted
  = Some (2, Some (GetInventory None (Some true)), [Direct]).
Proof. reflexivity. Qed.

Example failure_then_dismiss :
  (λ s, (fetchCount (trace s), fetching s, alerts s))
    <$> run defaultProps
          (orderCard 0 ++ [OrderSettled 0 (inl {| message := None |});
                           PressAlertButton 0 0]) mounted
  = Some (1, [], []).
Proof. reflexivity. Qed.

(** * Further properties of the screen *)

(** ** Confirming an order *)

(** X1. Pressing 'Place Order' on an open confirmation dialog closes the
    dialog and makes exactly one [createOrder] call, with the request built
    from the product the dialog captured - whatever the catalog holds by
    then; the view state is untouched and the dialog has no third button. *)
Theorem confirm_submits_once props s dialog product :
  alerts s !! dialog = Some (confirmDialog product) →
  text <$> alertButtons (confirmDialog product) !! 1%nat = Some "Place Order"
  ∧ step props (PressAlertButton dialog 2) s = None
  ∧ ∃ s', step props (PressAlertButton dialog 1) s = Some s'
          ∧ trace s' = trace s ++ [CreateOrder (orderRequest props product)]
          ∧ submitting s' = submitting s ++ [orderRequest props product]
          ∧ alerts s' = delete dialog (alerts s)
          ∧ view s' = view s
          ∧ fetching s' = fetching s.
Proof.
  intros Hd. split; [done |]. unfold step. rewrite Hd. simpl.
  split; [done |]. by eexists.
Qed.

Lemma confirm_submits_once_witness :
  ∃ s', step buyer7 (PressAlertButton 0 1) confirming = Some s'
        ∧ trace s' = trace confirming ++ [CreateOrder (orderRequest buyer7 rice)]
        ∧ submitting s' = submitting confirming ++ [orderRequest buyer7 rice]
        ∧ alerts s' = delete 0%nat (alerts confirming)
        ∧ view s' = view confirming
        ∧ fetching s' = fetching confirming.
Proof.
  apply (confirm_submits_once buyer7 confirming 0 rice).
  reflexivity.
Defined.

(** X2. Every submitted request names the product of its confirmation
    dialog: product id, product name and distributor id are copied from
    it. *)
Theorem submitted_identity_fields props s req :
  reachable props s → CreateOrder req ∈ trace s →
  ∃ product, AlertShown (confirmDialog product) ∈ trace s
             ∧ OrderRequest.product_id req = Product.id product
             ∧ OrderRequest.product_name req = Product.product_name product
             ∧ OrderRequest.distributor_id req = Product.distributor_id product.
Proof.
  intros Hr Hin.
  destruct (submitted_request_derived _ _ _ Hr Hin) as (product & ? & ->).
  by exists product.
Qed.

Lemma submitted_identity_fields_witness :
  ∃ product, AlertShown (confirmDialog product) ∈ trace saltOrdered
             ∧ OrderRequest.product_id (orderRequest defaultProps salt)
               = Product.id product
             ∧ OrderRequest.product_name (orderRequest defaultProps salt)
               = Product.product_name product
             ∧ OrderRequest.distributor_id (orderRequest defaultProps salt)
               = Product.distributor_id product.
Proof.
  apply (submitted_identity_fields defaultProps saltOrdered).
  - exists (orderCard 1). reflexivity.
  - apply (list_elem_of_lookup_2 _ 2). reflexivity.
Defined.

Lemma js_or_not_empty x d : d ≠ "" → js_or x d ≠ "".
Proof. intros Hd. by destruct x as [[| a s] |]. Qed.

(** X3. No submitted request has an empty payment mode or an empty delivery
    address, and its user id is empty only when the [userId] prop was
    supplied as the empty string: the parameter default replaces a missing
    prop, not an empty one. *)
Theorem submitted_fields_nonempty props s req :
  reachable props s → CreateOrder req ∈ trace s →
  OrderRequest.payment_mode req ≠ ""
  ∧ OrderRequest.delivery_address req ≠ ""
  ∧ (OrderRequest.user_id req = "" ↔ userId props = Some "").
Proof.
  intros Hr Hin.
  destruct (submitted_request_derived _ _ _ Hr Hin) as (product & _ & ->).
  simpl. split; [by apply js_or_not_empty |]. split; [done |].
  unfold userIdOf. destruct (userId props) as [u |]; simpl; [| done].
  split; [by intros -> | by intros [= ->]].
Qed.

Lemma submitted_fields_nonempty_witness :
  OrderRequest.payment_mode (orderRequest defaultProps salt) ≠ ""
  ∧ OrderRequest.delivery_address (orderRequest defaultProps salt) ≠ ""
  ∧ (OrderRequest.user_id (orderRequest defaultProps salt) = ""
     ↔ userId defaultProps = Some "").
Proof.
  apply (submitted_fields_nonempty defaultProps saltOrdered).
  - exists (orderCard 1). reflexivity.
  - apply (list_elem_of_lookup_2 _ 2). reflexivity.
Defined.

(** ** What changes the catalog *)

(** X4. The only event that changes the products is a resolved
    [getInventory]; the products are then the list received.  Selecting,
    confirming, cancelling, a settled order, a rejected fetch and the start
    of a load or refresh all leave the products as they are. *)
Theorem products_change_only_on_resolved_fetch props ev s s' :
  step props ev s = Some s' →
  products (view s') = products (view s)
  ∨ ∃ call data, ev = InventorySettled call (inr data)
                 ∧ products (view s') = data.
Proof.
  intros Hstep. destruct ev as [| card | dialog button | call r | call r].
  - apply step_PullToRefresh in Hstep as [_ ->]. by left.
  - apply step_PressOrderButton in Hstep as (product & _ & ->). by left.
  - apply step_PressAlertButton in Hstep as (d & b & _ & _ & ->).
    left. by destruct (onPress b).
  - apply step_InventorySettled in Hstep as (k & _ & ->).
    destruct r as [error | data]; [left; by destruct k |].
    right. exists call, data. by destruct k.
  - apply step_OrderSettled in Hstep as [_ ->]. left. by destruct r.
Qed.

Lemma products_change_only_on_resolved_fetch_witness :
  products (view (placeOrder_settled (inr {| order_id := "ORD-1" |})
                    (submitDone 0 riceOrdered)))
  = products (view riceOrdered)
  ∨ ∃ call data,
      OrderSettled 0 (inr {| order_id := "ORD-1" |})
      = InventorySettled call (inr data)
      ∧ products (view (placeOrder_settled (inr {| order_id := "ORD-1" |})
                          (submitDone 0 riceOrdered))) = data.
Proof.
  apply (products_change_only_on_resolved_fetch defaultProps
           (OrderSettled 0 (inr {| order_id := "ORD-1" |})) riceOrdered).
  reflexivity.
Defined.

(** ** The flags and the fetches in flight *)

Lemma flagInv_mounted : flagInv mounted.
Proof. split; simpl; [done | discriminate]. Qed.

Lemma flagInv_loadProducts k s :
  (k = Direct → flagInv s) → flagInv (loadProducts k s).
Proof.
  intros Hinv. split; simpl.
  - intros _ Hnil. by apply app_eq_nil in Hnil as [_ ?].
  - intros Hr. rewrite elem_of_app, list_elem_of_singleton.
    destruct k; [left; by apply Hinv | by right].
Qed.

Lemma flagInv_step props ev s s' :
  flagInv s → step props ev s = Some s' → flagInv s'.
Proof.
  intros Hinv Hstep. destruct ev as [| card | dialog button | call r | call r].
  - apply step_PullToRefresh in Hstep as [_ ->].
    by apply flagInv_loadProducts.
  - apply step_PressOrderButton in Hstep as (product & _ & ->).
    destruct Hinv. by split.
  - apply step_PressAlertButton in Hstep as (d & b & _ & _ & ->).
    destruct (onPress b); simpl.
    + destruct Hinv. by split.
    + destruct Hinv. by split.
    + apply flagInv_loadProducts. intros _. destruct Hinv. by split.
  - apply step_InventorySettled in Hstep as (k & Hk & ->).
    destruct Hinv as [_ Hrefreshing].
    destruct k; split; try (by destruct r).
    intros Hr. assert (Hr' : refreshing (view s) = true) by (by destruct r).
    assert (Hin : FromOnRefresh ∈ delete call (fetching s)).
    { by apply (elem_of_delete_other _ _ _ Direct); [apply Hrefreshing | |]. }
    by destruct r.
  - apply step_OrderSettled in Hstep as [_ ->].
    destruct Hinv. by destruct r; split.
Qed.

Lemma reachable_flagInv props s : reachable props s → flagInv s.
Proof.
  intros Hr. induction Hr as [| ev s s' _ IH Hstep] using reachable_ind.
  - apply flagInv_mounted.
  - by eapply flagInv_step.
Qed.

(** X5. On every reachable screen a set flag has a fetch in flight behind
    it: [loading] is set only while some [getInventory] call is in flight,
    and [refreshing] only while one started by [onRefresh] is.  With nothing
    in flight both flags are off and the full-screen loader is not shown. *)
Theorem flags_imply_fetch_in_flight props s :
  reachable props s →
  (loading (view s) = true → fetching s ≠ [])
  ∧ (refreshing (view s) = true → FromOnRefresh ∈ fetching s)
  ∧ (fetching s = [] →
     loading (view s) = false ∧ refreshing (view s) = false
     ∧ render (view s) ≠ LoadingView).
Proof.
  intros Hr. destruct (reachable_flagInv _ _ Hr) as [Hl Hf].
  split; [done |]. split; [done |]. intros Hnil.
  assert (loading (view s) = false) as Hl'.
  { destruct (loading (view s)); [by destruct Hl | done]. }
  assert (refreshing (view s) = false) as Hf'.
  { destruct (refreshing (view s)); [| done].
    specialize (Hf eq_refl). rewrite Hnil in Hf. by apply elem_of_nil in Hf. }
  split; [done |]. split; [done |].
  unfold render. rewrite Hl'. simpl. by case_bool_decide.
Qed.

Lemma flags_imply_fetch_in_flight_witness :
  (loading (view overlapped) = true → fetching overlapped ≠ [])
  ∧ (refreshing (view overlapped) = true → FromOnRefresh ∈ fetching overlapped)
  ∧ (fetching overlapped = [] →
     loading (view overlapped) = false ∧ refreshing (view overlapped) = false
     ∧ render (view overlapped) ≠ LoadingView).
Proof.
  apply (flags_imply_fetch_in_flight defaultProps overlapped).
  exists overlapping. vm_compute. reflexivity.
Defined.

(** X6. Overlapping loads are not told apart: whichever [getInventory] call
    settles, [loading] is switched off and the full-screen loader goes away,
    also while other calls are still in flight. *)
Theorem settle_clears_loading_despite_overlap props s call r s' :
  step props (InventorySettled call r) s = Some s' →
  loading (view s') = false
  ∧ render (view s') ≠ LoadingView
  ∧ length (fetching s) = S (length (fetching s'))
  ∧ (2 ≤ length (fetching s) → fetching s' ≠ []).
Proof.
  intros Hstep. apply step_InventorySettled in Hstep as (k & Hk & ->).
  assert (Hlen : length (fetching s) = S (length (delete call (fetching s)))).
  { rewrite length_delete by eauto.
    apply lookup_lt_Some in Hk. lia. }
  assert (Hview : ∀ v, loading v = false → render v ≠ LoadingView).
  { intros v Hv. unfold render. rewrite Hv. simpl. by case_bool_decide. }
  destruct k, r; simpl; (split; [done |]); (split; [by apply Hview |]);
    (split; [done |]); intros H2 Hnil; rewrite Hnil in Hlen; simpl in Hlen; lia.
Qed.

Lemma settle_clears_loading_despite_overlap_witness :
  ∃ s', step defaultProps (InventorySettled 1 (inl {| message := None |}))
          overlapped = Some s'
        ∧ loading (view s') = false
        ∧ render (view s') ≠ LoadingView
        ∧ length (fetching overlapped) = S (length (fetching s'))
        ∧ (2 ≤ length (fetching overlapped) → fetching s' ≠ []).
Proof.
  eexists. split; [reflexivity |].
  apply (settle_clears_loading_despite_overlap defaultProps overlapped 1
           (inl {| message := None |})).
  reflexivity.
Defined.

(** ** What stays on screen during a load *)

(** X7. A pull to refresh keeps on screen what was there - the same cards
    or the same empty message - and turns the refresh control's spinner
    on. *)
Theorem refresh_keeps_content props s s' :
  step props PullToRefresh s = Some s' →
  render (view s') = render (view s)
  ∧ ∃ title subtitle content,
      OffersScreen_view (view s)
      = ListScreen (refreshing (view s)) title subtitle content
      ∧ OffersScreen_view (view s')
        = ListScreen true title subtitle content.
Proof.
  intros Hstep. apply step_PullToRefresh in Hstep as [Hshown ->].
  unfold render, OffersScreen_view in *. simpl.
  destruct (loading (view s) && negb (refreshing (view s))); [done |].
  split; [done |]. by eexists _, _, _.
Qed.

Lemma refresh_keeps_content_witness :
  render (view (onRefresh idleScreen)) = render (view idleScreen)
  ∧ ∃ title subtitle content,
      OffersScreen_view (view idleScreen)
      = ListScreen (refreshing (view idleScreen)) title subtitle content
      ∧ OffersScreen_view (view (onRefresh idleScreen))
        = ListScreen true title subtitle content.
Proof.
  apply (refresh_keeps_content defaultProps idleScreen).
  reflexivity.
Defined.

(** While the full-screen loader is shown, an event that settles no fetch
    leaves the view state as it is. *)
Lemma step_keeps_loader props ev s s' :
  step props ev s = Some s' → isInventorySettled ev = false →
  render (view s) = LoadingView → view s' = view s.
Proof.
  intros Hstep Hev Hloader.
  destruct ev as [| card | dialog button | call r | call r]; [| | | done |].
  - apply step_PullToRefresh in Hstep as [Hshown _]. done.
  - apply step_PressOrderButton in Hstep as (product & _ & ->). done.
  - apply step_PressAlertButton in Hstep as (d & b & _ & _ & ->).
    apply render_LoadingView in Hloader as [Hl _].
    destruct (onPress b); simpl; [done | done |].
    destruct (view s) as [ps l r]. simpl in *. by rewrite Hl.
  - apply step_OrderSettled in Hstep as [_ ->]. by destruct r.
Qed.

Lemma run_keeps_loader props evs s s' :
  run props evs s = Some s' →
  Forall (λ ev, isInventorySettled ev = false) evs →
  render (view s) = LoadingView → view s' = view s.
Proof.
  revert s. induction evs as [| ev evs IH]; intros s Hrun Hall Hloader;
    simpl in Hrun.
  - by injection Hrun as <-.
  - destruct (step props ev s) as [s0 |] eqn:Hstep; [| done]. simpl in Hrun.
    apply Forall_cons in Hall as [Hev Hall].
    pose proof (step_keeps_loader _ _ _ _ Hstep Hev Hloader) as Hview.
    rewrite <- Hview. apply (IH s0); [done | done | by rewrite Hview].
Qed.

(** While the full-screen loader is shown neither pull-to-refresh nor an
    order button is on screen. *)
Lemma loader_disables props s :
  render (view s) = LoadingView →
  OffersScreen_view (view s) = LoadingScreen "Loading products..."
  ∧ step props PullToRefresh s = None
  ∧ ∀ card, step props (PressOrderButton card) s = None.
Proof.
  intros Hloader. unfold step. rewrite Hloader.
  apply render_LoadingView in Hloader as [Hl Hr].
  unfold OffersScreen_view. by rewrite Hl, Hr.
Qed.

(** X8. Acknowledging a success while no refresh is running replaces the
    list by the full-screen loader, although the products are kept in the
    state.  The loader stays, with no order button and no pull to refresh on
    screen, through every event until some [getInventory] call settles -
    the one of this reload, or an earlier one still in flight. *)
Theorem reload_shows_loader props s dialog order :
  alerts s !! dialog = Some (successDialog order) →
  refreshing (view s) = false →
  ∃ s', step props (PressAlertButton dialog 0) s = Some s'
        ∧ fetching s' = fetching s ++ [Direct]
        ∧ ∀ evs s2,
            run props evs s' = Some s2 →
            Forall (λ ev, isInventorySettled ev = false) evs →
            products (view s2) = products (view s)
            ∧ render (view s2) = LoadingView
            ∧ OffersScreen_view (view s2) = LoadingScreen "Loading products..."
            ∧ step props PullToRefresh s2 = None
            ∧ ∀ card, step props (PressOrderButton card) s2 = None.
Proof.
  intros Hd Hr. eexists. unfold step at 1. rewrite Hd. simpl.
  split; [done |]. split; [done |]. intros evs s2 Hrun Hall.
  assert (Hloader : render (view (loadProducts Direct (closeAlert dialog s)))
                    = LoadingView).
  { apply render_LoadingView. by split. }
  pose proof (run_keeps_loader _ _ _ _ Hrun Hall Hloader) as Hview.
  assert (Hloader2 : render (view s2) = LoadingView) by (by rewrite Hview).
  split; [by rewrite Hview |]. split; [done |].
  by apply (loader_disables props).
Qed.

Lemma reload_shows_loader_witness :
  ∃ s', step defaultProps (PressAlertButton 0 0) succeeded = Some s'
        ∧ fetching s' = fetching succeeded ++ [Direct]
        ∧ ∀ evs s2,
            run defaultProps evs s' = Some s2 →
            Forall (λ ev, isInventorySettled ev = false) evs →
            products (view s2) = products (view succeeded)
            ∧ render (view s2) = LoadingView
            ∧ OffersScreen_view (view s2) = LoadingScreen "Loading products..."
            ∧ step defaultProps PullToRefresh s2 = None
            ∧ ∀ card, step defaultProps (PressOrderButton card) s2 = None.
Proof.
  apply (reload_shows_loader defaultProps succeeded 0 {| order_id := "ORD-1" |});
    reflexivity.
Defined.

(** The sample screen [succeeded] is the one a confirmed order for [rice]
    leads to when it succeeds. *)
Lemma succeeded_reachable : reachable defaultProps succeeded.
Proof.
  exists (orderCard 0 ++ [OrderSettled 0 (inr {| order_id := "ORD-1" |})]).
  by vm_compute.
Qed.

(** ** Confirmations, orders and successes *)

Lemma countIf_cons {A : Type} (p : A → bool) (x : A) (l : list A) :
  countIf p (x :: l) = (if p x then 1 else 0) + countIf p l.
Proof.
  unfold countIf. rewrite filter_cons.
  destruct (p x) eqn:E; case_decide as H; simpl; try done.
Qed.

Lemma countIf_snoc {A : Type} (p : A → bool) (l : list A) (x : A) :
  countIf p (l ++ [x]) = countIf p l + (if p x then 1 else 0).
Proof.
  induction l as [| y l IH].
  { change ([] ++ [x]) with [x]. rewrite countIf_cons. unfold countIf. simpl. lia. }
  rewrite <- app_comm_cons, !countIf_cons, IH. lia.
Qed.

Lemma countIf_delete {A : Type} (p : A → bool) (l : list A) (i : nat) (x : A) :
  l !! i = Some x →
  countIf p l = countIf p (delete i l) + (if p x then 1 else 0).
Proof.
  revert i. induction l as [| y l IH]; intros i Hi; [done |].
  destruct i as [| i]; simpl in *.
  - injection Hi as ->. rewrite countIf_cons. lia.
  - rewrite !countIf_cons, (IH i Hi). lia.
Qed.

Lemma length_delete_lookup {A : Type} (l : list A) (i : nat) (x : A) :
  l !! i = Some x → length l = S (length (delete i l)).
Proof.
  intros Hi. rewrite length_delete by eauto. apply lookup_lt_Some in Hi. lia.
Qed.

Lemma orderInv_mounted : orderInv mounted.
Proof. split; simpl; unfold countIf; simpl; lia. Qed.

Lemma orderInv_step props ev s s' :
  traceInv props s → orderInv s → step props ev s = Some s' → orderInv s'.
Proof.
  intros Htr [Hc Hs] Hstep.
  destruct ev as [| card | dialog button | call r | call r].
  - apply step_PullToRefresh in Hstep as [_ ->].
    split; simpl; rewrite !countIf_snoc; simpl; lia.
  - apply step_PressOrderButton in Hstep as (product & _ & ->).
    split; simpl; rewrite !countIf_snoc; simpl; lia.
  - apply step_PressAlertButton in Hstep as (d & b & Hd & Hb & ->).
    pose proof (countIf_delete isConfirmDialog _ _ _ Hd) as Hdel.
    destruct (inv_alerts _ _ Htr d (list_elem_of_lookup_2 _ _ _ Hd)) as [Hsd _].
    destruct Hsd as [product | order | error fallback];
      unfold alertButtons in Hb; simpl in Hb;
      destruct button as [| [| button]]; simpl in Hb; try done;
      injection Hb as <-; simpl in *;
      split; simpl; rewrite ?countIf_snoc, ?length_app; simpl; lia.
  - apply step_InventorySettled in Hstep as (k & _ & ->).
    destruct k, r; split; simpl; rewrite ?countIf_snoc; simpl; lia.
  - apply step_OrderSettled in Hstep as [[req Hreq] ->].
    pose proof (length_delete_lookup _ _ _ Hreq) as Hlen.
    destruct r; split; simpl; rewrite ?countIf_snoc; simpl; lia.
Qed.

Lemma reachable_orderInv props s : reachable props s → orderInv s.
Proof.
  intros Hr. induction Hr as [| ev s s' Hr IH Hstep] using reachable_ind.
  - apply orderInv_mounted.
  - eapply orderInv_step; [by apply reachable_traceInv | done | done].
Qed.

(** X9. One confirmation gives at most one order: on every reachable screen
    the [createOrder] calls made, together with the confirmation dialogs
    still open, do not outnumber the confirmation dialogs shown. *)
Theorem one_order_per_confirmation props s :
  reachable props s →
  countIf isCreateOrder (trace s) + countIf isConfirmDialog (alerts s)
  ≤ countIf isConfirmShown (trace s).
Proof. intros Hr. apply (inv_confirmed _ (reachable_orderInv _ _ Hr)). Qed.

Lemma one_order_per_confirmation_witness :
  countIf isCreateOrder (trace riceOrdered)
  + countIf isConfirmDialog (alerts riceOrdered)
  ≤ countIf isConfirmShown (trace riceOrdered).
Proof.
  apply (one_order_per_confirmation defaultProps riceOrdered).
  exists (orderCard 0). reflexivity.
Defined.

(** X10. Success is never reported for an order that has not settled: on
    every reachable screen the success dialogs shown, together with the
    [createOrder] calls still in flight, do not outnumber the [createOrder]
    calls made. *)
Theorem success_needs_settled_order props s :
  reachable props s →
  countIf isSuccessShown (trace s) + length (submitting s)
  ≤ countIf isCreateOrder (trace s).
Proof. intros Hr. apply (inv_succeeded _ (reachable_orderInv _ _ Hr)). Qed.

Lemma success_needs_settled_order_witness :
  countIf isSuccessShown (trace overlapped) + length (submitting overlapped)
  ≤ countIf isCreateOrder (trace overlapped).
Proof.
  apply (success_needs_settled_order defaultProps overlapped).
  exists overlapping. vm_compute. reflexivity.
Defined.

(** What a step adds to the trace: nothing, or one call; an order request
    only for the product of a confirmation dialog already in the trace. *)
Lemma step_trace props ev s s' :
  traceInv props s → step props ev s = Some s' →
  trace s' = trace s
  ∨ ∃ e, trace s' = trace s ++ [e]
         ∧ ∀ req, e = CreateOrder req →
             ∃ product, req = orderRequest props product
                        ∧ AlertShown (confirmDialog product) ∈ trace s.
Proof.
  intros Htr Hstep. destruct ev as [| card | dialog button | call r | call r].
  - apply step_PullToRefresh in Hstep as [_ ->]. right. by eexists.
  - apply step_PressOrderButton in Hstep as (product & _ & ->). right. by eexists.
  - apply step_PressAlertButton in Hstep as (d & b & Hd & Hb & ->).
    apply list_elem_of_lookup_2 in Hd, Hb.
    destruct (inv_alerts _ _ Htr d Hd) as [Hsd Hshown].
    pose proof (screenDialog_handler d b Hsd Hb) as Hh.
    destruct (onPress b) as [| product |]; simpl; [by left | |].
    + right. eexists. split; [done |]. intros req [= <-]. subst d. eauto.
    + right. by eexists.
  - apply step_InventorySettled in Hstep as (k & _ & ->).
    destruct r as [error | data]; [right | left; by destruct k].
    eexists. by destruct k.
  - apply step_OrderSettled in Hstep as [_ ->]. right.
    destruct r; by eexists.
Qed.

Lemma confirmedFirst_snoc props t e :
  confirmedFirst props t →
  (∀ req, e = CreateOrder req →
     ∃ product, req = orderRequest props product
                ∧ AlertShown (confirmDialog product) ∈ t) →
  confirmedFirst props (t ++ [e]).
Proof.
  intros Ht He t1 req t2 Heq.
  destruct t2 as [| x t2 _] using rev_ind.
  - apply app_inj_tail in Heq as [-> ->]. by apply He.
  - rewrite app_comm_cons, app_assoc in Heq.
    apply app_inj_tail in Heq as [-> _]. by eapply Ht.
Qed.

Lemma reachable_confirmedFirst props s :
  reachable props s → confirmedFirst props (trace s).
Proof.
  intros Hr. induction Hr as [| ev s s' Hr IH Hstep] using reachable_ind.
  - intros t1 req t2 Heq. simpl in Heq.
    destruct t1 as [| e1 [| e2 t1]]; discriminate.
  - destruct (step_trace _ _ _ _ (reachable_traceInv _ _ Hr) Hstep)
      as [-> | (e & -> & He)]; [done | by apply confirmedFirst_snoc].
Qed.

(** X11. The buyer has seen what is sent: every [createOrder] call comes
    later in the trace than a confirmation dialog whose text states the
    product name, the price and the quantity of that very request. *)
Theorem order_preceded_by_its_confirmation props s t1 req t2 :
  reachable props s → trace s = t1 ++ CreateOrder req :: t2 →
  ∃ d, AlertShown d ∈ t1
       ∧ title d = "Place Order"
       ∧ body d = confirmText req.
Proof.
  intros Hr Heq.
  destruct (reachable_confirmedFirst _ _ Hr _ _ _ Heq) as (product & -> & Hin).
  by exists (confirmDialog product).
Qed.

Lemma order_preceded_by_its_confirmation_witness :
  ∃ d, AlertShown d ∈ [GetInventory None (Some true);
                       AlertShown (confirmDialog rice)]
       ∧ title d = "Place Order"
       ∧ body d = confirmText (orderRequest defaultProps rice).
Proof.
  apply (order_preceded_by_its_confirmation defaultProps riceOrdered _ _ []).
  - exists (orderCard 0). reflexivity.
  - reflexivity.
Defined.

(** ** The cards *)

(** X12. The order button of the i-th card on screen runs
    [handlePlaceOrder] for the i-th product of the state, the product the
    card shows; where no card is on screen - loader, empty message, or an
    index past the last card - no order can be started. *)
Theorem card_button_opens_its_dialog props s i :
  step props (PressOrderButton i) s
  = match OffersScreen_view (view s) with
    | ListScreen _ _ _ (Cards cards) => (λ c, orderButton c s) <$> cards !! i
    | _ => None
    end
  ∧ ∀ spinner title subtitle cards c,
      OffersScreen_view (view s) = ListScreen spinner title subtitle (Cards cards) →
      cards !! i = Some c →
      length cards = length (products (view s))
      ∧ ∃ product, products (view s) !! i = Some product
                   ∧ c = renderCard product
                   ∧ key c = Product.id product
                   ∧ alerts (orderButton c s) = alerts s ++ [confirmDialog product].
Proof.
  unfold step, render, OffersScreen_view.
  destruct (loading (view s) && negb (refreshing (view s))); [done |].
  case_bool_decide as Hlen; [done |]. split.
  - rewrite list_lookup_fmap. by destruct (products (view s) !! i).
  - intros spinner t st cards c [= _ _ _ <-] Hc.
    rewrite length_fmap. split; [done |].
    rewrite list_lookup_fmap in Hc.
    destruct (products (view s) !! i) as [product |]; [| done].
    injection Hc as <-. by exists product.
Qed.

Lemma card_button_opens_its_dialog_witness :
  length [renderCard rice; renderCard salt; renderCard sugar]
  = length (products (view idleScreen))
  ∧ ∃ product, products (view idleScreen) !! 1%nat = Some product
               ∧ renderCard salt = renderCard product
               ∧ key (renderCard salt) = Product.id product
               ∧ alerts (orderButton (renderCard salt) idleScreen)
                 = alerts idleScreen ++ [confirmDialog product].
Proof.
  apply (proj2 (card_button_opens_its_dialog defaultProps idleScreen 1)
           false "Available Products"
           "Place orders directly. Track status in Orders tab.");
    reflexivity.
Defined.

(** X13. The service-area line is absent for a product without service
    areas and otherwise joins the first two areas with a comma: products
    whose first two areas agree show the same line, whatever follows. *)
Theorem areas_line_shows_first_two p q :
  take 2 (Product.service_areas p) = take 2 (Product.service_areas q) →
  areasText (renderCard p) = areasText (renderCard q)
  ∧ areasText (renderCard p)
    = match Product.service_areas p with
      | [] => NotRendered
      | [a] => Element a
      | a :: b :: _ => Element (a +:+ ", " +:+ b)
      end.
Proof.
  intros Htake. simpl. split.
  - rewrite Htake. f_equal.
    destruct (Product.service_areas p) as [| a [| b l]],
             (Product.service_areas q) as [| a' [| b' l']]; done.
  - by destruct (Product.service_areas p) as [| a [| b l]].
Qed.

Lemma areas_line_shows_first_two_witness :
  areasText (renderCard sugar) = areasText (renderCard sugar)
  ∧ areasText (renderCard sugar) = Element "Pune, Nashik".
Proof.
  apply (areas_line_shows_first_two sugar sugar). reflexivity.
Defined.

(** X14. A card shows one badge per payment mode, in order and keyed by
    position, and no badge row for a product without payment modes.  The
    order then carries "COD" when there is no badge row, and the text of the
    first badge when that text is not empty. *)
Theorem badges_match_modes props p :
  match paymentBadges (renderCard p) with
  | NotRendered =>
      Product.payment_modes p = []
      ∧ OrderRequest.payment_mode (orderRequest props p) = "COD"
  | BareString _ => False
  | Element badges =>
      Product.payment_modes p ≠ []
      ∧ length badges = length (Product.payment_modes p)
      ∧ (∀ i, badges !! i = (λ mode, (i, mode)) <$> Product.payment_modes p !! i)
      ∧ (∀ mode, badges !! 0%nat = Some (0%nat, mode) → mode ≠ "" →
                 OrderRequest.payment_mode (orderRequest props p) = mode)
  end.
Proof.
  simpl. destruct (Product.payment_modes p) as [| m ms] eqn:E; simpl; [done |].
  split; [done |]. split; [by rewrite length_imap |]. split.
  - intros i. by rewrite <- (list_lookup_imap (λ idx mode, (idx, mode)) (m :: ms)).
  - intros mode [= <-] Hm. by apply js_or_nonempty.
Qed.

Lemma badges_match_modes_witness :
  OrderRequest.payment_mode (orderRequest defaultProps rice) = "UPI".
Proof.
  destruct (badges_match_modes defaultProps rice) as (_ & _ & _ & Hfirst).
  apply Hfirst; [reflexivity | discriminate].
Defined.

Lemma js_and_string_cases {A : Type} (x : option string) (e : string → A) :
  js_and_string x e
  = match x with
    | None => NotRendered
    | Some s => if bool_decide (s = "") then BareString "" else Element (e s)
    end.
Proof. by destruct x as [[| a s] |]. Qed.

Lemma js_and_string_Element {A : Type} (x : option string) (e : string → A) (a : A) :
  js_and_string x e = Element a ↔ ∃ s, x = Some s ∧ s ≠ "" ∧ a = e s.
Proof.
  destruct x as [[| c s] |]; simpl; split.
  - done.
  - by intros (s & [= <-] & Hs & _).
  - intros [= <-]. by eexists.
  - by intros (s' & [= <-] & _ & ->).
  - done.
  - by intros (s & [=] & _).
Qed.

(** X15. The category line and the lead-time line are elements exactly when
    the field is present and not empty; a missing field renders nothing,
    and an empty string leaves the empty string itself as the child. *)
Theorem optional_lines p :
  productDescription (renderCard p)
  = match Product.category p with
    | None => NotRendered
    | Some c => if bool_decide (c = "") then BareString "" else Element c
    end
  ∧ leadText (renderCard p)
    = match Product.lead_time p with
      | None => NotRendered
      | Some l => if bool_decide (l = "") then BareString ""
                  else Element ("Lead: " +:+ l)
      end
  ∧ (∀ c, productDescription (renderCard p) = Element c
          ↔ Product.category p = Some c ∧ c ≠ "")
  ∧ (∀ t, leadText (renderCard p) = Element t
          ↔ ∃ l, Product.lead_time p = Some l ∧ l ≠ "" ∧ t = "Lead: " +:+ l).
Proof.
  simpl. split; [apply js_and_string_cases |].
  split; [apply js_and_string_cases |]. split.
  - intros c. rewrite js_and_string_Element. split.
    + by intros (s & -> & Hs & ->).
    + intros [-> Hc]. by exists c.
  - intros t. apply js_and_string_Element.
Qed.

Lemma optional_lines_witness :
  leadText (renderCard sugar) = Element "Lead: 2 days".
Proof.
  destruct (optional_lines sugar) as (_ & _ & _ & Hlead).
  apply Hlead. exists "2 days".
  split; [reflexivity |]. split; [discriminate | reflexivity].
Defined.
